(** * Extension reconciler of provider-postgresql

    Shallow embedding of [pkg/controller/postgresql/extension/reconciler.go]:
    the [ExtensionParameters] struct, [pq.QuoteIdentifier], [lateInit],
    [upToDate] and the four lifecycle operations [Observe], [Create],
    [Update] and [Delete] of [external], against an abstract executor
    ([xsql.DB]) whose answers are given by an oracle and whose calls are
    recorded in a log. *)

From Stdlib Require Import String Ascii List Bool.
Import ListNotations.
Open Scope string_scope.

(** ** Go values *)

(** [v1alpha1.ExtensionParameters]. [Extension] is a plain string, as
    [lateInit] and [Create] use it (compared with the empty string, passed
    by value to [pq.QuoteIdentifier]); [Version] and [Template] are
    [*string], modelled as [option string]. *)
Record ExtensionParameters := mkParams {
  Extension : string;
  Version : option string;
  Template : option string
}.

(** [xpv1.Condition] without its [LastTransitionTime]: the clock is not
    modelled, and [Condition.Equal] ignores that field. *)
Record Condition := mkCondition {
  ctype : string;
  cstatus : string;
  creason : string;
  cmessage : string
}.

(** [xpv1.Available()]: type [Ready], status [True], reason [Available]. *)
Definition Available : Condition := mkCondition "Ready" "True" "Available" "".

(** [Condition.Equal]: same type, status, reason and message. *)
Definition cond_equal (a b : Condition) : bool :=
  String.eqb (ctype a) (ctype b) && String.eqb (cstatus a) (cstatus b)
  && String.eqb (creason a) (creason b) && String.eqb (cmessage a) (cmessage b).

(** The inner loop of [ConditionedStatus.SetConditions] for one new
    condition: every existing condition of the same type that is not
    [Equal] to it is replaced in place; the flag says whether one of the
    same type exists. *)
Fixpoint set_in_place (new : Condition) (l : list Condition) : bool * list Condition :=
  match l with
  | [] => (false, [])
  | existing :: rest =>
      let '(ex, rest') := set_in_place new rest in
      if negb (String.eqb (ctype existing) (ctype new)) then (ex, existing :: rest')
      else if cond_equal existing new then (true, existing :: rest')
      else (true, new :: rest')
  end.

(** [ConditionedStatus.SetConditions] with one condition: appended only
    when no condition of its type exists. *)
Definition SetConditions (new : Condition) (l : list Condition) : list Condition :=
  let '(ex, l') := set_in_place new l in
  if ex then l' else (l ++ [new])%list.

(** [v1alpha1.Extension]: the external-name annotation (as returned by
    [meta.GetExternalName]), [Spec.ForProvider] and the status conditions. *)
Record Extension_cr := mkExt {
  external_name : string;
  ForProvider : ExtensionParameters;
  conditions : list Condition
}.

(** [resource.Managed]: the reconciler is handed an arbitrary managed
    resource and type-switches on it. *)
Inductive Managed := MExtension (cr : Extension_cr) | MOther.

(** Go errors, by their message; [nil] is [None]. *)
Definition error := option string.

(** [errors.Wrap]: [nil] stays [nil], otherwise the label, a colon and the cause. *)
Definition Wrap (err : error) (msg : string) : error :=
  match err with
  | None => None
  | Some m => Some (msg ++ ": " ++ m)
  end.

Definition errNotExtension := "managed resource is not a Extension custom resource".
Definition errSelectExtension := "cannot select extension".
Definition errCreateExtension := "cannot create extension".
Definition errDropExtension := "cannot drop extension".

(** ** [pq.QuoteIdentifier]

    The name is cut at its first NUL character, every double quote in it is
    doubled, and the result is wrapped in double quotes. *)

Definition dq : ascii := Ascii.ascii_of_nat 34.
Definition nul : ascii := Ascii.ascii_of_nat 0.

(** [name[:IndexRune(name, 0)]] (the whole name when it has no NUL). *)
Fixpoint cut_at_nul (s : string) : string :=
  match s with
  | EmptyString => EmptyString
  | String c r => if Ascii.eqb c nul then EmptyString else String c (cut_at_nul r)
  end.

(** [strings.Replace]: every double quote is doubled. *)
Fixpoint double_quotes (s : string) : string :=
  match s with
  | EmptyString => EmptyString
  | String c r =>
      if Ascii.eqb c dq then String dq (String dq (double_quotes r))
      else String c (double_quotes r)
  end.

Definition QuoteIdentifier (name : string) : string :=
  String dq (double_quotes (cut_at_nul name) ++ String dq EmptyString).

(** ** [lateInit] and [upToDate] *)

(** [lateInit(observed, &desired)]: the mutated [desired] is returned next
    to the flag. *)
Definition lateInit (observed desired : ExtensionParameters)
  : bool * ExtensionParameters :=
  let '(li, d) :=
    if String.eqb (Extension desired) ""
    then (true, mkParams (Extension observed) (Version desired) (Template desired))
    else (false, desired) in
  match Version d with
  | None => (true, mkParams (Extension d) (Version observed) (Template d))
  | Some _ => (li, d)
  end.

(** [cmp.Equal] on [*string]: both nil, or both non-nil with equal targets. *)
Definition ptr_equal (a b : option string) : bool :=
  match a, b with
  | None, None => true
  | Some x, Some y => String.eqb x y
  | _, _ => false
  end.

(** [cmp.Equal(desired, observed, cmpopts.IgnoreFields(..., "Template"))]. *)
Definition upToDate (observed desired : ExtensionParameters) : bool :=
  String.eqb (Extension desired) (Extension observed)
  && ptr_equal (Version desired) (Version observed).

(** ** The executor *)

Record Query := mkQuery { q_string : string; q_params : list string }.

(** Outcome of [db.Scan]: a row (its [extversion]), [sql.ErrNoRows]
    (recognised by [xsql.IsNoRows]) or any other error. *)
Inductive ScanResult := ScanRow (extversion : string) | NoRows | ScanErr (msg : string).

(** The database answers as an oracle. *)
Record DB := mkDB {
  db_scan : Query -> ScanResult;
  db_exec : Query -> error
}.

(** The calls issued to the executor, in order. *)
Inductive Call := CScan (q : Query) | CExec (q : Query).

(** ** The lifecycle operations of [external] *)

(** [managed.ExternalObservation]. *)
Record ExternalObservation := mkObs {
  ResourceExists : bool;
  ResourceUpToDate : bool;
  ResourceLateInitialized : bool
}.

Definition emptyObservation := mkObs false false false.

(** What an operation leaves behind: its value, its error, the managed
    resource (possibly mutated) and the executor log. *)
Record Outcome (A : Type) := mkOutcome {
  out_value : A;
  out_err : error;
  out_mg : Managed;
  out_log : list Call
}.
Arguments mkOutcome {A}.
Arguments out_value {A}.
Arguments out_err {A}.
Arguments out_mg {A}.
Arguments out_log {A}.

Definition selectQuery :=
  "SELECT " ++ "extversion, " ++ "FROM pg_extension " ++ "WHERE extname=$1".

Definition set_forProvider (cr : Extension_cr) (p : ExtensionParameters) : Extension_cr :=
  mkExt (external_name cr) p (conditions cr).

Definition set_available (cr : Extension_cr) : Extension_cr :=
  mkExt (external_name cr) (ForProvider cr) (SetConditions Available (conditions cr)).

(** The [observed] value built by [Observe] once the row is scanned:
    [Extension: new(string)] is never written by the [Scan] (only
    [extversion] is selected), so its string is empty; [Version] points to
    the scanned [extversion]; [Template] is left nil. *)
Definition observedOf (extversion : string) : ExtensionParameters :=
  mkParams "" (Some extversion) None.

Definition Observe (db : DB) (mg : Managed) (log : list Call)
  : Outcome ExternalObservation :=
  match mg with
  | MOther => mkOutcome emptyObservation (Some errNotExtension) mg log
  | MExtension cr =>
      let q := mkQuery selectQuery [external_name cr] in
      let log' := (log ++ [CScan q])%list in
      match db_scan db q with
      | NoRows => mkOutcome (mkObs false false false) None mg log'
      | ScanErr e =>
          mkOutcome emptyObservation (Wrap (Some e) errSelectExtension) mg log'
      | ScanRow v =>
          let observed := observedOf v in
          let cr1 := set_available cr in
          (* lateInit runs first, then upToDate sees the merged spec *)
          let '(li, d) := lateInit observed (ForProvider cr1) in
          let utd := upToDate observed d in
          mkOutcome (mkObs true utd li) None (MExtension (set_forProvider cr1 d)) log'
      end
  end.

(** The command built by [Create] with its [strings.Builder]. *)
Definition createCommand (p : ExtensionParameters) : string :=
  "CREATE EXTENSION "
  ++ (if negb (String.eqb (Extension p) "") then QuoteIdentifier (Extension p) else "")
  ++ match Version p with
     | Some v => " VERSION " ++ QuoteIdentifier v
     | None => ""
     end.

Definition Create (db : DB) (mg : Managed) (log : list Call) : Outcome unit :=
  match mg with
  | MOther => mkOutcome tt (Some errNotExtension) mg log
  | MExtension cr =>
      let q := mkQuery (createCommand (ForProvider cr)) [] in
      mkOutcome tt (Wrap (db_exec db q) errCreateExtension) mg (log ++ [CExec q])%list
  end.

Definition Update (db : DB) (mg : Managed) (log : list Call) : Outcome unit :=
  match mg with
  | MOther => mkOutcome tt (Some errNotExtension) mg log
  | MExtension _ => mkOutcome tt None mg log
  end.

Definition dropCommand (cr : Extension_cr) : string :=
  "DROP EXTENSION " ++ QuoteIdentifier (external_name cr).

Definition Delete (db : DB) (mg : Managed) (log : list Call) : Outcome unit :=
  match mg with
  | MOther => mkOutcome tt (Some errNotExtension) mg log
  | MExtension cr =>
      let q := mkQuery (dropCommand cr) [] in
      mkOutcome tt (Wrap (db_exec db q) errDropExtension) mg (log ++ [CExec q])%list
  end.

(** ** Reading a command back

    A reader of PostgreSQL quoted identifiers and of the two command shapes,
    used to state what a command names. *)

Fixpoint strip_prefix (p s : string) : option string :=
  match p, s with
  | EmptyString, _ => Some s
  | String c p', String d s' => if Ascii.eqb c d then strip_prefix p' s' else None
  | String _ _, EmptyString => None
  end.

(** The body of a quoted identifier after its opening quote: a doubled
    quote stands for one quote, a single quote closes the identifier. *)
Fixpoint ident_body (s : string) : option (string * string) :=
  match s with
  | EmptyString => None
  | String c r =>
      if Ascii.eqb c dq then
        match r with
        | String c2 r2 =>
            if Ascii.eqb c2 dq
            then option_map (fun '(a, b) => (String dq a, b)) (ident_body r2)
            else Some (EmptyString, r)
        | EmptyString => Some (EmptyString, EmptyString)
        end
      else option_map (fun '(a, b) => (String c a, b)) (ident_body r)
  end.

Definition parse_ident (s : string) : option (string * string) :=
  match s with
  | String c r => if Ascii.eqb c dq then ident_body r else None
  | EmptyString => None
  end.

Definition starts_with_dq (s : string) : bool :=
  match s with String c _ => Ascii.eqb c dq | EmptyString => false end.

(** The optional version clause that ends a creation command. *)
Definition parse_version (r : string) : option (option string) :=
  match r with
  | EmptyString => Some None
  | _ =>
      match strip_prefix " VERSION " r with
      | Some r' =>
          match parse_ident r' with
          | Some (v, EmptyString) => Some (Some v)
          | _ => None
          end
      | None => None
      end
  end.

(** A creation command: its extension identifier (if any) and its version. *)
Definition parse_create (s : string) : option (option string * option string) :=
  match strip_prefix "CREATE EXTENSION " s with
  | None => None
  | Some r =>
      if starts_with_dq r then
        match parse_ident r with
        | Some (n, r') => option_map (fun v => (Some n, v)) (parse_version r')
        | None => None
        end
      else option_map (fun v => (None, v)) (parse_version r)
  end.

(** A drop command: the one identifier it names. *)
Definition parse_drop (s : string) : option string :=
  match strip_prefix "DROP EXTENSION " s with
  | Some r =>
      match parse_ident r with
      | Some (n, EmptyString) => Some n
      | _ => None
      end
  | None => None
  end.

Definition created_identifier (cmd : string) : option string :=
  match parse_create cmd with Some (n, _) => n | None => None end.

(** [s] occurs in [w] as a contiguous piece. *)
Definition substring (s w : string) : Prop := exists p q, w = p ++ s ++ q.

(** The identity of the example of the spec: foo, a double quote, bar. *)
Definition foo_q_bar : string := "foo" ++ String dq "bar".

(** An [o], a lone double quote and a [b] in a row: a piece of
    that identity that no quoted identifier other than its own can contain. *)
Definition oqb_at (c : ascii) (r : string) : bool :=
  Ascii.eqb c "o"%char
  && match r with
     | String d r' => Ascii.eqb d dq && match r' with
                                        | String e _ => Ascii.eqb e "b"%char
                                        | EmptyString => false
                                        end
     | EmptyString => false
     end.

Fixpoint has_oqb (s : string) : bool :=
  match s with
  | EmptyString => false
  | String c r => oqb_at c r || has_oqb r
  end.

(** Some desired field is unset: an empty name or a nil version. *)
Definition has_unset_field (p : ExtensionParameters) : bool :=
  String.eqb (Extension p) "" || match Version p with None => true | Some _ => false end.

(** Executors and resources of the scenarios below. *)
Definition db_no_rows := mkDB (fun _ => NoRows) (fun _ => None).
Definition db_row_1_3 := mkDB (fun _ => ScanRow "1.3") (fun _ => None).
Definition cr_pgcrypto := mkExt "pgcrypto" (mkParams "pgcrypto" None None) [].
Definition cr_renamed := mkExt "pgcrypto" (mkParams "uuid-ossp" None None) [].

(** ** The connector

    [connector.Connect]: tracks the ProviderConfig usage, reads the
    ProviderConfig the resource references, reads the credentials Secret
    that ProviderConfig references, and opens an executor on its data. The
    Kubernetes client answers as an oracle; its calls are recorded. *)

Definition errTrackPCUsage := "cannot track ProviderConfig usage".
Definition errGetPC := "cannot get ProviderConfig".
Definition errNoSecretRef := "ProviderConfig does not reference a credentials Secret".
Definition errGetSecret := "cannot get credentials Secret".

(** [xpv1.SecretReference]. *)
Record SecretReference := mkSecretRef { ref_namespace : string; ref_name : string }.

(** [v1alpha1.ProviderConfig], reduced to [Spec.Credentials.ConnectionSecretRef]. *)
Record ProviderConfig := mkPC { ConnectionSecretRef : option SecretReference }.

(** [corev1.Secret.Data], a [map[string][]byte], by its entries. *)
Definition SecretData := list (string * string).

(** A [kube.Get] either fills the object or fails with an error. *)
Inductive GetResult (A : Type) := GetOk (a : A) | GetErr (msg : string).
Arguments GetOk {A}.
Arguments GetErr {A}.

(** The [resource.Tracker] and the [client.Client] reads [Connect] uses. *)
Record Kube := mkKube {
  kube_track : Managed -> error;
  kube_get_pc : string -> GetResult ProviderConfig;
  kube_get_secret : SecretReference -> GetResult SecretData
}.

Inductive KubeCall :=
| KTrack (mg : Managed)
| KGetPC (name : string)
| KGetSecret (ref : SecretReference).

(** [connector]: the Kubernetes client with its tracker, and [newDB]. *)
Record connector := mkConnector {
  kube : Kube;
  newDB : SecretData -> DB
}.

(** The result of [Connect]: the [external] client (its executor), the
    error and the Kubernetes calls made. *)
Record ConnectOutcome := mkConnectOutcome {
  conn_client : option DB;
  conn_err : error;
  conn_log : list KubeCall
}.

(** [pcName cr] is [cr.GetProviderConfigReference().Name]: the reference
    lives in the resource's spec beside [ForProvider]. *)
Definition Connect (c : connector) (pcName : Extension_cr -> string) (mg : Managed)
  : ConnectOutcome :=
  match mg with
  | MOther => mkConnectOutcome None (Some errNotExtension) []
  | MExtension cr =>
      match kube_track (kube c) mg with
      | Some e => mkConnectOutcome None (Wrap (Some e) errTrackPCUsage) [KTrack mg]
      | None =>
          match kube_get_pc (kube c) (pcName cr) with
          | GetErr e =>
              mkConnectOutcome None (Wrap (Some e) errGetPC) [KTrack mg; KGetPC (pcName cr)]
          | GetOk pc =>
              match ConnectionSecretRef pc with
              | None =>
                  mkConnectOutcome None (Some errNoSecretRef)
                    [KTrack mg; KGetPC (pcName cr)]
              | Some ref =>
                  match kube_get_secret (kube c) ref with
                  | GetErr e =>
                      mkConnectOutcome None (Wrap (Some e) errGetSecret)
                        [KTrack mg; KGetPC (pcName cr); KGetSecret ref]
                  | GetOk data =>
                      mkConnectOutcome (Some (newDB c data)) None
                        [KTrack mg; KGetPC (pcName cr); KGetSecret ref]
                  end
              end
          end
      end
  end.

(** ** Auxiliary lemmas *)

Lemma eqb_refl_string (s : string) : String.eqb s s = true.
Proof. apply String.eqb_refl. Qed.

Lemma ptr_equal_refl (a : option string) : ptr_equal a a = true.
Proof. destruct a; simpl; [apply String.eqb_refl | reflexivity]. Qed.

Lemma lateInit_unfold (o d : ExtensionParameters) :
  lateInit o d =
  (String.eqb (Extension d) "" || match Version d with None => true | Some _ => false end,
   mkParams (if String.eqb (Extension d) "" then Extension o else Extension d)
            (match Version d with None => Version o | Some v => Some v end)
            (Template d)).
Proof.
  destruct d as [n v t]; unfold lateInit; simpl.
  destruct (String.eqb n ""); destruct v; simpl; reflexivity.
Qed.

Lemma string_app_assoc (a b c : string) : (a ++ b) ++ c = a ++ (b ++ c).
Proof. induction a as [|x a IH]; simpl; [reflexivity | now rewrite IH]. Qed.

Lemma string_app_nil_r (a : string) : a ++ "" = a.
Proof. induction a as [|x a IH]; simpl; [reflexivity | now rewrite IH]. Qed.

Lemma strip_prefix_app (p s : string) : strip_prefix p (p ++ s) = Some s.
Proof.
  induction p as [|c p IH]; simpl; [reflexivity |].
  rewrite Ascii.eqb_refl. exact IH.
Qed.

Lemma ident_body_double_quotes (s rest : string) :
  starts_with_dq rest = false ->
  ident_body (double_quotes s ++ String dq rest) = Some (s, rest).
Proof.
  intro Hrest. induction s as [|c s IH]; simpl.
  - destruct rest as [|c2 r2]; [reflexivity |].
    simpl in Hrest. now rewrite Hrest.
  - destruct (Ascii.eqb_spec c dq) as [->|Hc]; simpl.
    + rewrite IH. reflexivity.
    + apply Ascii.eqb_neq in Hc. rewrite Hc, IH. reflexivity.
Qed.

(** [QuoteIdentifier] reads back as one identifier, the name cut at its
    first NUL, and leaves what follows it untouched. *)
Lemma parse_ident_QuoteIdentifier (s rest : string) :
  starts_with_dq rest = false ->
  parse_ident (QuoteIdentifier s ++ rest) = Some (cut_at_nul s, rest).
Proof.
  intro Hrest. unfold QuoteIdentifier. simpl.
  rewrite string_app_assoc. simpl. apply ident_body_double_quotes, Hrest.
Qed.

Lemma QuoteIdentifier_nonempty (s : string) : starts_with_dq (QuoteIdentifier s) = true.
Proof. unfold QuoteIdentifier. reflexivity. Qed.

Lemma parse_version_app (r : string) :
  parse_version (" VERSION " ++ r)
  = match parse_ident r with Some (v, EmptyString) => Some (Some v) | _ => None end.
Proof. reflexivity. Qed.

Lemma parse_version_clause (v : option string) :
  parse_version (match v with
                 | Some v => " VERSION " ++ QuoteIdentifier v
                 | None => ""
                 end) = Some (option_map cut_at_nul v).
Proof.
  destruct v as [v|]; [|reflexivity].
  rewrite parse_version_app.
  rewrite <- (string_app_nil_r (QuoteIdentifier v)) at 1.
  rewrite parse_ident_QuoteIdentifier by reflexivity. reflexivity.
Qed.

Lemma version_clause_not_dq (v : option string) :
  starts_with_dq (match v with
                  | Some v => " VERSION " ++ QuoteIdentifier v
                  | None => ""
                  end) = false.
Proof. destruct v; reflexivity. Qed.

Lemma parse_create_createCommand (p : ExtensionParameters) :
  parse_create (createCommand p)
  = Some (if String.eqb (Extension p) "" then None else Some (cut_at_nul (Extension p)),
          option_map cut_at_nul (Version p)).
Proof.
  unfold parse_create, createCommand. rewrite strip_prefix_app.
  set (vc := match Version p with
             | Some v => " VERSION " ++ QuoteIdentifier v
             | None => ""
             end).
  assert (Hvc : starts_with_dq vc = false) by apply version_clause_not_dq.
  assert (Hpv : parse_version vc = Some (option_map cut_at_nul (Version p)))
    by apply parse_version_clause.
  destruct (String.eqb (Extension p) "").
  - change ((if negb true then QuoteIdentifier (Extension p) else "") ++ vc) with vc.
    rewrite Hvc, Hpv. reflexivity.
  - change ((if negb false then QuoteIdentifier (Extension p) else "") ++ vc)
      with (QuoteIdentifier (Extension p) ++ vc).
    replace (starts_with_dq (QuoteIdentifier (Extension p) ++ vc)) with true
      by reflexivity.
    rewrite parse_ident_QuoteIdentifier by exact Hvc. rewrite Hpv. reflexivity.
Qed.

(** The drop command reads back as the one identifier of the external name. *)
Lemma parse_drop_dropCommand (cr : Extension_cr) :
  parse_drop (dropCommand cr) = Some (cut_at_nul (external_name cr)).
Proof.
  unfold parse_drop, dropCommand. rewrite strip_prefix_app.
  rewrite <- (string_app_nil_r (QuoteIdentifier (external_name cr))) at 1.
  rewrite parse_ident_QuoteIdentifier by reflexivity. reflexivity.
Qed.


Lemma has_oqb_app (p r : string) : has_oqb r = true -> has_oqb (p ++ r) = true.
Proof.
  intro H. induction p as [|c p IH]; simpl; [exact H |].
  rewrite IH. apply orb_true_r.
Qed.

Lemma substring_foo_q_bar (w : string) : substring foo_q_bar w -> has_oqb w = true.
Proof.
  intros (p & q & ->). apply has_oqb_app. reflexivity.
Qed.

Lemma oqb_at_quoted (c : ascii) (s : string) :
  oqb_at c (double_quotes s ++ String dq "") = false.
Proof.
  unfold oqb_at. destruct (Ascii.eqb c "o"%char); [simpl | reflexivity].
  destruct s as [|x s]; [reflexivity |]. simpl.
  destruct (Ascii.eqb_spec x dq) as [->|Hx]; [reflexivity |].
  apply Ascii.eqb_neq in Hx. simpl. now rewrite Hx.
Qed.

(** The body and closing quote of a quoted identifier never hold an [o],
    a lone quote and a [b] in a row: every inner quote is doubled. *)
Lemma has_oqb_quoted (s : string) : has_oqb (double_quotes s ++ String dq "") = false.
Proof.
  induction s as [|x s IH]; [reflexivity |]. simpl.
  destruct (Ascii.eqb_spec x dq) as [->|Hx]; simpl.
  - rewrite IH. reflexivity.
  - apply Ascii.eqb_neq in Hx.
    change (oqb_at x (double_quotes s ++ String dq "") || has_oqb (double_quotes s ++ String dq "") = false).
    rewrite oqb_at_quoted, IH. reflexivity.
Qed.

(** Example: the command [Create] builds for [ext1] at version [2.0]. *)
Example create_ext1_v2 :
  createCommand (mkParams "ext1" (Some "2.0") None)
  = "CREATE EXTENSION " ++ String dq ("ext1" ++ String dq
      (" VERSION " ++ String dq ("2.0" ++ String dq ""))).
Proof. reflexivity. Qed.

Lemma cond_equal_refl (c : Condition) : cond_equal c c = true.
Proof. unfold cond_equal. rewrite !String.eqb_refl. reflexivity. Qed.

Definition same_type_as (c x : Condition) : bool := String.eqb (ctype x) (ctype c).

Lemma set_in_place_flag (c : Condition) (l : list Condition) :
  fst (set_in_place c l) = existsb (same_type_as c) l.
Proof.
  induction l as [|x l IH]; simpl; [reflexivity |].
  destruct (set_in_place c l) as [ex l'] eqn:E; simpl in *.
  unfold same_type_as at 1.
  destruct (String.eqb (ctype x) (ctype c)); simpl;
    [destruct (cond_equal x c); reflexivity | exact IH].
Qed.

(** The types are kept, position by position. *)
Lemma set_in_place_types (c : Condition) (l : list Condition) :
  map ctype (snd (set_in_place c l)) = map ctype l.
Proof.
  induction l as [|x l IH]; simpl; [reflexivity |].
  destruct (set_in_place c l) as [ex l'] eqn:E; simpl in *.
  destruct (String.eqb (ctype x) (ctype c)) eqn:Et; simpl;
    [destruct (cond_equal x c); simpl; rewrite IH;
     [reflexivity | apply String.eqb_eq in Et; now rewrite Et]
    | now rewrite IH].
Qed.

(** When every condition of the type of [c] is [Equal] to [c], nothing is
    replaced. *)
Lemma set_in_place_stable (c : Condition) (l : list Condition) :
  (forall x, In x l -> same_type_as c x = true -> cond_equal x c = true) ->
  snd (set_in_place c l) = l.
Proof.
  induction l as [|x l IH]; intro H; simpl; [reflexivity |].
  destruct (set_in_place c l) as [ex l'] eqn:E; simpl in *.
  assert (Hl : l' = l).
  { apply IH. intros y Hy. apply H. now right. }
  subst l'.
  destruct (String.eqb (ctype x) (ctype c)) eqn:Et; simpl; [| reflexivity].
  rewrite (H x (or_introl eq_refl) Et). reflexivity.
Qed.

(** After the loop, every condition of the type of [c] is [Equal] to [c]. *)
Lemma set_in_place_equal (c : Condition) (l : list Condition) :
  forall x, In x (snd (set_in_place c l)) -> same_type_as c x = true -> cond_equal x c = true.
Proof.
  induction l as [|y l IH]; simpl; [intros x [] |].
  destruct (set_in_place c l) as [ex l'] eqn:E; simpl in *.
  intros x Hx Ht.
  destruct (String.eqb (ctype y) (ctype c)) eqn:Et; simpl in Hx.
  - destruct (cond_equal y c) eqn:Eq; destruct Hx as [<- | Hx];
      [exact Eq | apply IH; assumption | apply cond_equal_refl | apply IH; assumption].
  - destruct Hx as [<- | Hx]; [unfold same_type_as in Ht; congruence | apply IH; assumption].
Qed.

Lemma existsb_same_type_map (c : Condition) (l l' : list Condition) :
  map ctype l' = map ctype l -> existsb (same_type_as c) l' = existsb (same_type_as c) l.
Proof.
  revert l'. induction l as [|x l IH]; intros [|x' l'] H; simpl in *; try discriminate;
    [reflexivity |].
  injection H as Hx Hl. unfold same_type_as at 1 3. rewrite Hx, (IH l' Hl). reflexivity.
Qed.

Lemma SetConditions_idem (c : Condition) (l : list Condition) :
  SetConditions c (SetConditions c l) = SetConditions c l.
Proof.
  unfold SetConditions at 2 3.
  destruct (set_in_place c l) as [ex l'] eqn:E.
  pose proof (set_in_place_flag c l) as Hf. pose proof (set_in_place_types c l) as Ht.
  pose proof (set_in_place_equal c l) as Heq. rewrite E in Hf, Ht, Heq; simpl in *.
  destruct ex.
  - change (SetConditions c l' = l'). unfold SetConditions.
    destruct (set_in_place c l') as [ex2 l2] eqn:E2.
    pose proof (set_in_place_flag c l') as Hf2. pose proof (set_in_place_stable c l' Heq) as Hs.
    rewrite E2 in Hf2, Hs; simpl in *. subst l2.
    rewrite (existsb_same_type_map c l l' Ht), <- Hf in Hf2. now rewrite Hf2.
  - change (SetConditions c (l ++ [c])%list = (l ++ [c])%list). unfold SetConditions.
    destruct (set_in_place c (l ++ [c])%list) as [ex2 l2] eqn:E2.
    assert (Hall : forall x, In x (l ++ [c])%list -> same_type_as c x = true ->
                             cond_equal x c = true).
    { intros x Hx Hsx. apply in_app_iff in Hx as [Hx | [<- | []]].
      - exfalso. assert (existsb (same_type_as c) l = true)
          by (apply existsb_exists; eauto). congruence.
      - apply cond_equal_refl. }
    pose proof (set_in_place_stable c _ Hall) as Hs.
    pose proof (set_in_place_flag c (l ++ [c])%list) as Hf2.
    rewrite E2 in Hs, Hf2; simpl in *. subst l2.
    rewrite existsb_app in Hf2. simpl in Hf2. unfold same_type_as in Hf2 at 2.
    rewrite String.eqb_refl, orb_true_r in Hf2. now rewrite Hf2.
Qed.

(** [SetConditions] keeps the order and replaces a Ready condition in place. *)
Example SetConditions_in_place :
  SetConditions Available [Available; mkCondition "Synced" "True" "ReconcileSuccess" ""]
  = [Available; mkCondition "Synced" "True" "ReconcileSuccess" ""]
  /\ SetConditions Available [mkCondition "Ready" "False" "Unavailable" "";
                              mkCondition "Synced" "True" "ReconcileSuccess" ""]
     = [Available; mkCondition "Synced" "True" "ReconcileSuccess" ""].
Proof. split; reflexivity. Qed.

(** ** Theorems *)

(** C5: [lateInit] never overwrites a desired field that is already set:
    a non-empty desired name and a non-nil desired version are kept as they
    are, whatever the observed value (the template is untouched as well). *)
Theorem lateInit_keeps_set_fields (observed desired : ExtensionParameters) :
  let d' := snd (lateInit observed desired) in
  (Extension desired <> "" -> Extension d' = Extension desired)
  /\ (forall v, Version desired = Some v -> Version d' = Some v)
  /\ Template d' = Template desired.
Proof.
  simpl. rewrite lateInit_unfold; simpl. repeat split.
  - intro Hn. apply String.eqb_neq in Hn. now rewrite Hn.
  - intros v Hv. now rewrite Hv.
Qed.

(** C6: [upToDate] is reflexive and ignores [Template]: two parameter values
    that agree on [Extension] and [Version] are up to date with each other,
    whatever their templates. *)
Theorem upToDate_refl_ignores_template (x : ExtensionParameters) (t1 t2 : option string) :
  upToDate x x = true
  /\ upToDate (mkParams (Extension x) (Version x) t1)
              (mkParams (Extension x) (Version x) t2) = true.
Proof.
  unfold upToDate; simpl. rewrite String.eqb_refl, ptr_equal_refl. auto.
Qed.

(** C7: when the lookup reports no row, [Observe] answers that the
    resource does not exist, with a nil error, and the resource (its
    desired spec included) is left unchanged: neither [lateInit] nor
    [upToDate] has run. The only executor call is the lookup. *)
Theorem observe_no_rows_not_found (db : DB) (cr : Extension_cr) (log : list Call)
  (Hnorows : db_scan db (mkQuery selectQuery [external_name cr]) = NoRows) :
  let r := Observe db (MExtension cr) log in
  ResourceExists (out_value r) = false
  /\ ResourceUpToDate (out_value r) = false
  /\ ResourceLateInitialized (out_value r) = false
  /\ out_err r = None
  /\ out_mg r = MExtension cr
  /\ out_log r = (log ++ [CScan (mkQuery selectQuery [external_name cr])])%list.
Proof.
  simpl. rewrite Hnorows. simpl. repeat split.
Qed.

Lemma observe_no_rows_not_found_witness :
  db_scan db_no_rows (mkQuery selectQuery [external_name cr_pgcrypto]) = NoRows
  /\ out_mg (Observe db_no_rows (MExtension cr_pgcrypto) []) = MExtension cr_pgcrypto.
Proof.
  split; [reflexivity |].
  apply (observe_no_rows_not_found db_no_rows cr_pgcrypto []). reflexivity.
Defined.

(** C8: for an [Extension], [Update] is a no-op: no error, no executor
    call, the resource unchanged. *)
Theorem update_is_noop (db : DB) (cr : Extension_cr) (log : list Call) :
  Update db (MExtension cr) log = mkOutcome tt None (MExtension cr) log.
Proof. reflexivity. Qed.

(** C9: [Delete] issues exactly one command to the executor; its error is
    nil when the executor succeeds and otherwise carries the label
    [cannot drop extension]. *)
Theorem delete_one_command_labelled (db : DB) (cr : Extension_cr) (log : list Call) :
  let r := Delete db (MExtension cr) log in
  out_log r = (log ++ [CExec (mkQuery (dropCommand cr) [])])%list
  /\ (db_exec db (mkQuery (dropCommand cr) []) = None -> out_err r = None)
  /\ (forall e, db_exec db (mkQuery (dropCommand cr) []) = Some e ->
        exists m, out_err r = Some m /\ substring errDropExtension m).
Proof.
  simpl. repeat split.
  - intro H. now rewrite H.
  - intros e H. rewrite H. simpl. eexists; split; [reflexivity |].
    exists "", (": " ++ e). reflexivity.
Qed.

(** C1 (the code at the scenario): for the desired spec [pgcrypto] with no
    version and a live row of version [1.3], [Observe] reports the resource
    as existing and late-initialised and sets the desired version to [1.3],
    but the [observed] value it compares against keeps an empty name, so
    [upToDate(observed, desired)] is false and so is [ResourceUpToDate]. *)
Theorem observe_pgcrypto_scenario :
  let r := Observe db_row_1_3 (MExtension cr_pgcrypto) [] in
  ResourceExists (out_value r) = true
  /\ ResourceLateInitialized (out_value r) = true
  /\ out_mg r = MExtension (mkExt "pgcrypto" (mkParams "pgcrypto" (Some "1.3") None)
                                  [Available])
  /\ ResourceUpToDate (out_value r) = false
  /\ upToDate (observedOf "1.3") (mkParams "pgcrypto" (Some "1.3") None) = false.
Proof. vm_compute. repeat split. Qed.

(** C2 (counterexample): when the observed name is empty and the observed
    version nil, [lateInit] on an empty desired spec reports a fill, and a
    second call on the merged spec reports a fill again. *)
Lemma lateInit_second_call_counterexample :
  let o := mkParams "" None None in
  let d1 := snd (lateInit o (mkParams "" None None)) in
  fst (lateInit o (mkParams "" None None)) = true
  /\ d1 = mkParams "" None None
  /\ fst (lateInit o d1) = true.
Proof. vm_compute. repeat split. Qed.

(** C2 (amended): [lateInit] returns true exactly when the desired name is
    empty or the desired version nil before the call; each such field is
    overwritten with the observed value (even an empty or nil one) and every
    other field is kept. Once the merged spec has a non-empty name and a
    non-nil version, a second call returns false and changes nothing. *)
Theorem lateInit_flag_and_second_call (o d : ExtensionParameters) :
  fst (lateInit o d) = has_unset_field d
  /\ snd (lateInit o d)
     = mkParams (if String.eqb (Extension d) "" then Extension o else Extension d)
                (match Version d with None => Version o | Some v => Some v end)
                (Template d)
  /\ (has_unset_field (snd (lateInit o d)) = false ->
      lateInit o (snd (lateInit o d)) = (false, snd (lateInit o d))).
Proof.
  rewrite lateInit_unfold; simpl. split; [reflexivity |]. split; [reflexivity |].
  intro Hset. rewrite lateInit_unfold; simpl. unfold has_unset_field in Hset; simpl in Hset.
  apply orb_false_iff in Hset as [Hn Hv]. rewrite Hn.
  destruct (Version d), (Version o); try discriminate; reflexivity.
Qed.

(** C4 (the code): [Create] never reads [Template]: its command, hence the
    single executor call and the error, are the same for every template;
    [upToDate] and [lateInit] ignore it too. *)
Theorem create_ignores_template (db : DB) (n : string) (v t1 t2 : option string)
  (ext : string) (conds : list Condition) (log : list Call)
  (o d : ExtensionParameters) :
  out_log (Create db (MExtension (mkExt ext (mkParams n v t1) conds)) log)
  = out_log (Create db (MExtension (mkExt ext (mkParams n v t2) conds)) log)
  /\ out_err (Create db (MExtension (mkExt ext (mkParams n v t1) conds)) log)
     = out_err (Create db (MExtension (mkExt ext (mkParams n v t2) conds)) log)
  /\ upToDate o (mkParams (Extension d) (Version d) t1)
     = upToDate o (mkParams (Extension d) (Version d) t2)
  /\ fst (lateInit o (mkParams (Extension d) (Version d) t1))
     = fst (lateInit o (mkParams (Extension d) (Version d) t2)).
Proof.
  repeat split. rewrite !lateInit_unfold. reflexivity.
Qed.

(** C3 (counterexample): Delete with the external name [a] followed by a
    double quote: that identity holds a quoting-special character and yet
    occurs verbatim in the command, inside its own quoted form. *)
Lemma drop_command_raw_identity_counterexample :
  let ident := "a" ++ String dq "" in
  let cr := mkExt ident (mkParams "a" None None) [] in
  substring (String dq "") ident /\ substring ident (dropCommand cr).
Proof.
  split.
  - exists "a", "". reflexivity.
  - exists ("DROP EXTENSION " ++ String dq ""), (String dq (String dq "")). reflexivity.
Qed.

(** C3 (amended): the user strings enter Create's and Delete's commands only
    through [QuoteIdentifier]: reading the creation command back gives
    exactly the desired name (absent when empty) and version, and reading
    the drop command back gives exactly the external name, each cut at its
    first NUL, with nothing else in the command. The identity [foo_q_bar]
    never occurs verbatim in either command, whatever the version. *)
Theorem commands_quote_user_strings (p : ExtensionParameters) (cr : Extension_cr)
  (v t : option string) (q : ExtensionParameters) (conds : list Condition) :
  parse_create (createCommand p)
  = Some (if String.eqb (Extension p) "" then None else Some (cut_at_nul (Extension p)),
          option_map cut_at_nul (Version p))
  /\ parse_drop (dropCommand cr) = Some (cut_at_nul (external_name cr))
  /\ ~ substring foo_q_bar (createCommand (mkParams foo_q_bar v t))
  /\ ~ substring foo_q_bar (dropCommand (mkExt foo_q_bar q conds)).
Proof.
  split; [apply parse_create_createCommand |].
  split; [apply parse_drop_dropCommand |].
  split; intro Hsub; apply substring_foo_q_bar in Hsub; revert Hsub.
  - destruct v as [v|].
    + unfold createCommand. simpl. rewrite has_oqb_quoted. discriminate.
    + vm_compute. discriminate.
  - vm_compute. discriminate.
Qed.

(** C10 (counterexample): with an empty desired name and a version, the
    creation command still holds a quoted identifier (the version's); and
    an external name and a desired name that differ only after a NUL make
    Create and Delete name the same identifier. *)
Lemma create_delete_identity_counterexample :
  substring (QuoteIdentifier "1.0") (createCommand (mkParams "" (Some "1.0") None))
  /\ (let cr := mkExt ("a" ++ String nul "x") (mkParams ("a" ++ String nul "y") None None) [] in
      external_name cr <> Extension (ForProvider cr)
      /\ dropCommand cr = "DROP EXTENSION " ++ QuoteIdentifier "a"
      /\ createCommand (ForProvider cr) = "CREATE EXTENSION " ++ QuoteIdentifier "a").
Proof.
  split.
  - exists "CREATE EXTENSION  VERSION ", "". reflexivity.
  - split; [apply String.eqb_neq; reflexivity | split; reflexivity].
Qed.

(** C10 (amended): Observe looks the resource up by its external name and
    Delete drops the external name, while Create names the desired
    [Extension] field. When the two names differ and hold no NUL, the
    identifier Create names (none for an empty desired name) differs from
    the one Delete names. With an empty desired name, Create names no
    extension identifier: its command is [CREATE EXTENSION ] followed only
    by the version clause. *)
Theorem create_delete_identities (db : DB) (cr : Extension_cr) (log : list Call)
  (Hdiff : external_name cr <> Extension (ForProvider cr))
  (Hnul_ext : cut_at_nul (external_name cr) = external_name cr)
  (Hnul_name : cut_at_nul (Extension (ForProvider cr)) = Extension (ForProvider cr)) :
  out_log (Observe db (MExtension cr) log)
  = (log ++ [CScan (mkQuery selectQuery [external_name cr])])%list
  /\ out_log (Delete db (MExtension cr) log)
     = (log ++ [CExec (mkQuery ("DROP EXTENSION " ++ QuoteIdentifier (external_name cr)) [])])%list
  /\ out_log (Create db (MExtension cr) log)
     = (log ++ [CExec (mkQuery (createCommand (ForProvider cr)) [])])%list
  /\ parse_drop (dropCommand cr) = Some (external_name cr)
  /\ created_identifier (createCommand (ForProvider cr))
     = (if String.eqb (Extension (ForProvider cr)) "" then None
        else Some (Extension (ForProvider cr)))
  /\ created_identifier (createCommand (ForProvider cr)) <> parse_drop (dropCommand cr)
  /\ (forall p, Extension p = "" ->
        created_identifier (createCommand p) = None
        /\ createCommand p = "CREATE EXTENSION " ++ match Version p with
                                                   | Some v => " VERSION " ++ QuoteIdentifier v
                                                   | None => ""
                                                   end).
Proof.
  assert (Hc : forall p, created_identifier (createCommand p)
                         = if String.eqb (Extension p) "" then None
                           else Some (cut_at_nul (Extension p))).
  { intro p. unfold created_identifier. rewrite parse_create_createCommand. reflexivity. }
  assert (Hd : parse_drop (dropCommand cr) = Some (external_name cr)).
  { rewrite parse_drop_dropCommand, Hnul_ext. reflexivity. }
  split.
  { simpl. destruct (db_scan db _); [|reflexivity|reflexivity].
    destruct (lateInit _ _). reflexivity. }
  split; [reflexivity |]. split; [reflexivity |]. split; [exact Hd |].
  split; [rewrite Hc, Hnul_name; reflexivity |].
  split.
  - rewrite Hc, Hd, Hnul_name. destruct (String.eqb (Extension (ForProvider cr)) "");
      [discriminate |]. intro H. injection H as H. apply Hdiff. symmetry. exact H.
  - intros p Hp. rewrite Hc, Hp. split; [reflexivity |].
    unfold createCommand. rewrite Hp. reflexivity.
Qed.

Lemma create_delete_identities_witness :
  external_name cr_renamed <> Extension (ForProvider cr_renamed)
  /\ cut_at_nul (external_name cr_renamed) = external_name cr_renamed
  /\ cut_at_nul (Extension (ForProvider cr_renamed)) = Extension (ForProvider cr_renamed)
  /\ created_identifier (createCommand (ForProvider cr_renamed))
     <> parse_drop (dropCommand cr_renamed).
Proof.
  assert (Hdiff : external_name cr_renamed <> Extension (ForProvider cr_renamed))
    by (apply String.eqb_neq; reflexivity).
  split; [exact Hdiff |]. split; [reflexivity |]. split; [reflexivity |].
  apply (create_delete_identities db_no_rows cr_renamed [] Hdiff);
    reflexivity.
Defined.

(** ** Further properties of the reconciler *)

(** X3: when the lookup finds a row of version [v], [Observe] reports the
    resource as existing with no error, marks it [Available] and stores the
    late-initialised spec; it reports a late initialisation exactly when the
    desired name was empty or the desired version nil, and reports the
    resource up to date exactly when the desired name is empty and the
    desired version is nil or [v] (the observed name is always empty). *)
Theorem observe_found (db : DB) (cr : Extension_cr) (log : list Call) (v : string)
  (Hrow : db_scan db (mkQuery selectQuery [external_name cr]) = ScanRow v) :
  let r := Observe db (MExtension cr) log in
  ResourceExists (out_value r) = true
  /\ out_err r = None
  /\ ResourceLateInitialized (out_value r) = has_unset_field (ForProvider cr)
  /\ ResourceUpToDate (out_value r)
     = String.eqb (Extension (ForProvider cr)) ""
       && match Version (ForProvider cr) with None => true | Some w => String.eqb w v end
  /\ out_mg r = MExtension (mkExt (external_name cr)
                                  (snd (lateInit (observedOf v) (ForProvider cr)))
                                  (SetConditions Available (conditions cr)))
  /\ out_log r = (log ++ [CScan (mkQuery selectQuery [external_name cr])])%list.
Proof.
  simpl. rewrite Hrow.
  destruct cr as [en [n ver t] cs]; unfold set_available; simpl.
  rewrite lateInit_unfold; simpl.
  unfold has_unset_field, upToDate; simpl.
  destruct (String.eqb n "") eqn:En; destruct ver as [w|]; simpl;
    rewrite ?En, ?String.eqb_refl; repeat split.
Qed.

Lemma observe_found_witness :
  db_scan db_row_1_3 (mkQuery selectQuery [external_name cr_pgcrypto]) = ScanRow "1.3"
  /\ ResourceLateInitialized (out_value (Observe db_row_1_3 (MExtension cr_pgcrypto) []))
     = true.
Proof.
  split; [reflexivity |].
  apply (observe_found db_row_1_3 cr_pgcrypto [] "1.3"). reflexivity.
Defined.

(** X4: the spec [lateInit] writes is stable: merging the same observed
    value into an already merged spec gives it back unchanged. *)
Theorem lateInit_merge_idempotent (o d : ExtensionParameters) :
  snd (lateInit o (snd (lateInit o d))) = snd (lateInit o d).
Proof.
  destruct o as [on ov ot], d as [n ver t].
  rewrite !lateInit_unfold; simpl.
  destruct (String.eqb n "") eqn:En; simpl.
  - destruct (String.eqb on ""), ver, ov; reflexivity.
  - rewrite En. destruct ver, ov; reflexivity.
Qed.

(** X5: observing a found resource twice leaves it as observing it once:
    the stored spec and the status conditions do not change again. *)
Theorem observe_twice_same_resource (db : DB) (cr : Extension_cr) (log log' : list Call)
  (v : string)
  (Hrow : db_scan db (mkQuery selectQuery [external_name cr]) = ScanRow v) :
  out_mg (Observe db (out_mg (Observe db (MExtension cr) log)) log')
  = out_mg (Observe db (MExtension cr) log).
Proof.
  assert (Hobs : forall c l, external_name c = external_name cr ->
            out_mg (Observe db (MExtension c) l)
            = MExtension (set_forProvider (set_available c)
                            (snd (lateInit (observedOf v) (ForProvider (set_available c)))))).
  { intros c l Hc. unfold Observe. cbv zeta. rewrite Hc, Hrow.
    destruct (lateInit _ _); reflexivity. }
  rewrite (Hobs cr log eq_refl), Hobs by reflexivity.
  f_equal. unfold set_forProvider, set_available; simpl.
  rewrite lateInit_merge_idempotent, SetConditions_idem. reflexivity.
Qed.

Lemma observe_twice_same_resource_witness :
  db_scan db_row_1_3 (mkQuery selectQuery [external_name cr_pgcrypto]) = ScanRow "1.3"
  /\ out_mg (Observe db_row_1_3 (out_mg (Observe db_row_1_3 (MExtension cr_pgcrypto) [])) [])
     = out_mg (Observe db_row_1_3 (MExtension cr_pgcrypto) []).
Proof.
  split; [reflexivity |].
  apply (observe_twice_same_resource db_row_1_3 cr_pgcrypto [] [] "1.3"). reflexivity.
Defined.

(** X6: two names give the same quoted identifier exactly when they agree
    up to their first NUL; in particular [QuoteIdentifier] is injective on
    names without NUL. *)
Theorem QuoteIdentifier_eq_iff (a b : string) :
  QuoteIdentifier a = QuoteIdentifier b <-> cut_at_nul a = cut_at_nul b.
Proof.
  split.
  - intro H.
    assert (Ha := parse_ident_QuoteIdentifier a "" eq_refl).
    assert (Hb := parse_ident_QuoteIdentifier b "" eq_refl).
    rewrite H, Hb in Ha. congruence.
  - intro H. unfold QuoteIdentifier. now rewrite H.
Qed.

(** X7: [upToDate] does not depend on which argument is the observed one. *)
Theorem upToDate_sym (a b : ExtensionParameters) : upToDate a b = upToDate b a.
Proof.
  unfold upToDate. rewrite String.eqb_sym. f_equal.
  destruct (Version a), (Version b); simpl; try reflexivity. apply String.eqb_sym.
Qed.

(** X8: after [lateInit] merges an observed value into a desired spec, the
    two compare up to date exactly when the desired name was empty or equal
    to the observed one, and the desired version was nil or equal to the
    observed one. *)
Theorem upToDate_after_lateInit (o d : ExtensionParameters) :
  upToDate o (snd (lateInit o d))
  = (String.eqb (Extension d) "" || String.eqb (Extension d) (Extension o))
    && match Version d with
       | None => true
       | Some w => ptr_equal (Some w) (Version o)
       end.
Proof.
  rewrite lateInit_unfold. unfold upToDate; simpl.
  destruct (String.eqb (Extension d) "") eqn:E; simpl.
  - rewrite String.eqb_refl. destruct (Version d); [reflexivity | apply ptr_equal_refl].
  - destruct (Version d); [reflexivity |]. rewrite ptr_equal_refl, andb_true_r. reflexivity.
Qed.

(** X9: when the observed value has a name and a version, the spec
    [lateInit] leaves has no unset field. *)
Theorem lateInit_completes (o d : ExtensionParameters)
  (Hname : Extension o <> "") (Hver : Version o <> None) :
  has_unset_field (snd (lateInit o d)) = false.
Proof.
  rewrite lateInit_unfold. unfold has_unset_field; simpl.
  apply String.eqb_neq in Hname.
  destruct (String.eqb (Extension d) "") eqn:E; rewrite ?Hname, ?E; simpl;
    destruct (Version d); destruct (Version o); try reflexivity; congruence.
Qed.

Lemma lateInit_completes_witness :
  Extension (mkParams "pgcrypto" (Some "1.3") None) <> ""
  /\ Version (mkParams "pgcrypto" (Some "1.3") None) <> None
  /\ has_unset_field (snd (lateInit (mkParams "pgcrypto" (Some "1.3") None)
                                    (mkParams "" None None))) = false.
Proof.
  assert (Hn : Extension (mkParams "pgcrypto" (Some "1.3") None) <> "")
    by (apply String.eqb_neq; reflexivity).
  assert (Hv : Version (mkParams "pgcrypto" (Some "1.3") None) <> None) by discriminate.
  split; [exact Hn | split; [exact Hv |]].
  apply (lateInit_completes _ _ Hn Hv).
Defined.

(** X10: [Connect] hands back an executor exactly when it reports no
    error, and it does so exactly when tracking succeeds, the referenced
    ProviderConfig is read, it references a credentials Secret and that
    Secret is read; the executor is then [newDB] of the Secret's data, after
    exactly these three Kubernetes calls. *)
Theorem connect_success (c : connector) (pcName : Extension_cr -> string)
  (cr : Extension_cr) (x : DB) :
  (conn_client (Connect c pcName (MExtension cr)) = None
   <-> conn_err (Connect c pcName (MExtension cr)) <> None)
  /\ (conn_client (Connect c pcName (MExtension cr)) = Some x
      <-> exists pc ref data,
            kube_track (kube c) (MExtension cr) = None
            /\ kube_get_pc (kube c) (pcName cr) = GetOk pc
            /\ ConnectionSecretRef pc = Some ref
            /\ kube_get_secret (kube c) ref = GetOk data
            /\ x = newDB c data
            /\ conn_log (Connect c pcName (MExtension cr))
               = [KTrack (MExtension cr); KGetPC (pcName cr); KGetSecret ref]).
Proof.
  unfold Connect.
  destruct (kube_track (kube c) (MExtension cr)) as [e|] eqn:Ht.
  { simpl. split; [split; [discriminate | reflexivity] |].
    split; [discriminate |]. intros (pc & ref & data & H & _). discriminate. }
  destruct (kube_get_pc (kube c) (pcName cr)) as [pc|e] eqn:Hp.
  2:{ simpl. split; [split; [discriminate | reflexivity] |].
      split; [discriminate |]. intros (pc & ref & data & _ & H & _). discriminate. }
  destruct (ConnectionSecretRef pc) as [ref|] eqn:Hr.
  2:{ simpl. split; [split; [discriminate | reflexivity] |].
      split; [discriminate |]. intros (pc' & ref & data & _ & H & H' & _).
      injection H as <-. congruence. }
  destruct (kube_get_secret (kube c) ref) as [data|e] eqn:Hs; simpl.
  - split; [split; [discriminate | intro H; exfalso; apply H; reflexivity] |].
    split.
    + intro H. injection H as <-. exists pc, ref, data. repeat split; assumption.
    + intros (pc' & ref' & data' & _ & Hp' & Hr' & Hs' & -> & _).
      congruence.
  - split; [split; [discriminate | reflexivity] |].
    split; [discriminate |]. intros (pc' & ref' & data & _ & Hp' & Hr' & Hs' & _).
    congruence.
Qed.

(** X12: [Connect] reads a ProviderConfig only after tracking the resource
    succeeded, and the only Secret it ever reads is the one the
    ProviderConfig it read references. *)
Theorem connect_reads_only_referenced (c : connector) (pcName : Extension_cr -> string)
  (mg : Managed) :
  (forall n, In (KGetPC n) (conn_log (Connect c pcName mg)) ->
     exists cr, mg = MExtension cr /\ n = pcName cr /\ kube_track (kube c) mg = None)
  /\ (forall ref, In (KGetSecret ref) (conn_log (Connect c pcName mg)) ->
       exists cr pc, mg = MExtension cr
         /\ kube_get_pc (kube c) (pcName cr) = GetOk pc
         /\ ConnectionSecretRef pc = Some ref).
Proof.
  destruct mg as [cr|]; [| simpl; split; intros ? []].
  unfold Connect.
  destruct (kube_track (kube c) (MExtension cr)) as [e|] eqn:Ht;
    [simpl; split; intros ? [H | []]; discriminate |].
  destruct (kube_get_pc (kube c) (pcName cr)) as [pc|e] eqn:Hp.
  - destruct (ConnectionSecretRef pc) as [ref|] eqn:Hr.
    + destruct (kube_get_secret (kube c) ref) eqn:Hs; simpl;
        (split; [intros n [H | [H | [H | []]]]; try discriminate;
                 injection H as <-; eauto
                | intros ref' [H | [H | [H | []]]]; try discriminate;
                  injection H as <-; eauto]).
    + simpl. split.
      * intros n [H | [H | []]]; try discriminate. injection H as <-. eauto.
      * intros ref' [H | [H | []]]; discriminate.
  - simpl. split.
    + intros n [H | [H | []]]; try discriminate. injection H as <-. eauto.
    + intros ref' [H | [H | []]]; discriminate.
Qed.
